(** * ChargeGuard: the alarm evaluator and the display of [App]

    A shallow embedding of the [App] component (React, TypeScript): the
    values it derives on every render, the alarm effect that drives the
    alarm sound, the unmount cleanup, the click handler, and the parts of
    the rendered screen that depend on them.

    JavaScript numbers are IEEE 754 binary64 values, embedded as Rocq's
    primitive floats, so that [0.79 * 100] is the double the program
    computes.  React's render / effect cycle is embedded by explicit
    state passing over a record that holds the hook cells of the
    component. *)

From Stdlib Require Import ZArith Bool List String.
From Stdlib Require Import Floats.PrimFloat Floats.SpecFloat Floats.FloatOps.
From Stdlib Require Import Floats.FloatAxioms.
From Stdlib Require Import Numbers.Cyclic.Int63.Uint63.
Import ListNotations.

Set Warnings "-inexact-float".

(* ------------------------------------------------------------------ *)
(** ** JavaScript numbers *)

Definition number : Set := float.
Bind Scope float_scope with number.

Module JS.

Definition Infinity : number := infinity.

(** [a >= b] and [a > b] on numbers: IEEE comparisons, false as soon
    as one side is NaN. *)
Definition ge (a b : number) : bool := PrimFloat.leb b a.
Definition gt (a b : number) : bool := PrimFloat.ltb b a.

(** [a !== b] on numbers: the negation of IEEE equality, so
    [NaN !== x] holds for every [x] and [+0 !== -0] does not. *)
Definition strict_ne (a b : number) : bool := negb (PrimFloat.eqb a b).

(** [Math.round]: the integral number closest to [x], the one closer
    to +Infinity on a tie; NaN, the infinities and the zeros are
    returned as they are, and a result that is zero keeps the sign of
    [x].  A finite non-zero double is [(-1)^s * m * 2^e]; with [e >= 0]
    it is integral already, and otherwise the rounding is
    [floor ((2 * (+-m) + 2^-e) / 2^(1-e))], computed exactly in [Z]. *)
Definition Math_round (x : number) : number :=
  match Prim2SF x with
  | S754_finite s m e =>
      if (0 <=? e)%Z then x
      else
        let d := Z.shiftl 1 (- e) in
        let sm := if s then Z.neg m else Z.pos m in
        let n := ((2 * sm + d) / (2 * d))%Z in
        if (n =? 0)%Z then (if s then (-0)%float else 0%float)
        else if (n <? 0)%Z then (- of_uint63 (Uint63.of_Z (- n)))%float
        else of_uint63 (Uint63.of_Z n)
  | _ => x
  end.

End JS.

(* ------------------------------------------------------------------ *)
(** ** The alarm sound *)

Inductive SoundCall : Set := Start | Stop.

Module AlarmSound.

(** Modelled from the spec: the module [components/AlarmSound], whose
    [alarmSound] object [App] imports, is outside the verified sources.
    "Internal state is exactly {running: bool}". *)
Record t : Set := mk { running : bool }.

(** Modelled from the spec: [alarmSound.start] is missing.  "start() is
    idempotent -- if already running, no-op". *)
Definition start (s : t) : t := if running s then s else mk true.

(** Modelled from the spec: [alarmSound.stop] is missing.  "stop() is
    idempotent -- if already stopped, no-op". *)
Definition stop (s : t) : t := if running s then mk false else s.

Definition call (c : SoundCall) (s : t) : t :=
  match c with Start => start s | Stop => stop s end.

End AlarmSound.

(* ------------------------------------------------------------------ *)
(** ** The component *)

(** What [useBattery()] returns, as far as [App] destructures it. *)
Record Battery : Set := mkBattery {
  supported : bool;
  loading : bool;
  level : number;
  charging : bool;
  chargingTime : number
}.

(** The dependency array of the alarm effect:
    [[supported, charging, isThresholdReached, isAlarmEnabled, hasInteracted]]. *)
Definition Deps : Set := (bool * bool * bool * bool * bool)%type.

(** The component instance together with the [alarmSound] singleton it
    drives: the value of [useBattery], the four [useState] cells, what
    React remembers of the two effects, and the sound with the log of
    the calls made on it. *)
Record World : Set := mkWorld {
  battery : Battery;
  threshold : number;
  isAlarmEnabled : bool;
  isAlarmActive : bool;
  hasInteracted : bool;
  (** the dependencies of the last run of the alarm effect, [None] before its first run *)
  alarmDeps : option Deps;
  (** the cleanup of the [[]] effect is registered *)
  unmountCleanup : bool;
  sound : AlarmSound.t;
  calls : list SoundCall
}.

(** *** Derived state (computed on every render) *)

Definition batteryPercent (w : World) : number :=
  JS.Math_round (level (battery w) * 100)%float.

Definition isThresholdReached (w : World) : bool :=
  JS.ge (batteryPercent w) (threshold w).

(** The constant [shouldAlarm] of the alarm effect. *)
Definition shouldAlarm (w : World) : bool :=
  supported (battery w) && charging (battery w) && isThresholdReached w
  && isAlarmEnabled w && hasInteracted w.

Definition depsOf (w : World) : Deps :=
  (supported (battery w), charging (battery w), isThresholdReached w,
   isAlarmEnabled w, hasInteracted w).

(** React compares dependencies with [Object.is]; on booleans that is
    equality. *)
Definition deps_eqb (a b : Deps) : bool :=
  let '(a1, a2, a3, a4, a5) := a in
  let '(b1, b2, b3, b4, b5) := b in
  Bool.eqb a1 b1 && Bool.eqb a2 b2 && Bool.eqb a3 b3 && Bool.eqb a4 b4
  && Bool.eqb a5 b5.

(** *** The effects *)

Definition callFor (b : bool) : SoundCall := if b then Start else Stop.

(** The body of the alarm effect: [setIsAlarmActive(shouldAlarm)], then
    [alarmSound.start()] or [alarmSound.stop()].  It returns no cleanup. *)
Definition alarmEffect (w : World) : World :=
  let b := shouldAlarm w in
  {| battery := battery w;
     threshold := threshold w;
     isAlarmEnabled := isAlarmEnabled w;
     isAlarmActive := b;
     hasInteracted := hasInteracted w;
     alarmDeps := Some (depsOf w);
     unmountCleanup := unmountCleanup w;
     sound := AlarmSound.call (callFor b) (sound w);
     calls := calls w ++ [callFor b] |}.

(** The alarm effect is due after a render when it never ran or one of
    its dependencies differs from the last run. *)
Definition alarmEffectDue (w : World) : bool :=
  match alarmDeps w with
  | None => true
  | Some d => negb (deps_eqb d (depsOf w))
  end.

(** The second effect, with dependencies [[]]: its body only returns the
    cleanup, which React keeps until the component is unmounted. *)
Definition registerCleanup (w : World) : World :=
  {| battery := battery w;
     threshold := threshold w;
     isAlarmEnabled := isAlarmEnabled w;
     isAlarmActive := isAlarmActive w;
     hasInteracted := hasInteracted w;
     alarmDeps := alarmDeps w;
     unmountCleanup := true;
     sound := sound w;
     calls := calls w |}.

(** The effects of a committed render, in the order of their hooks.  The
    render that [setIsAlarmActive] asks for changes no dependency, so no
    effect is due after it. *)
Definition flushEffects (w : World) : World :=
  let w1 := if alarmEffectDue w then alarmEffect w else w in
  if unmountCleanup w1 then w1 else registerCleanup w1.

(** *** What is rendered *)

Inductive RingColor : Set := RingRed | RingEmerald | RingBlue.

Inductive StatusMessage : Set :=
| UnplugChargerNow
| ChargeGoalMet
| AlarmSetFor (t : number)
| ConnectCharger.

Definition statusText (m : StatusMessage) : string :=
  match m with
  | UnplugChargerNow => "UNPLUG CHARGER NOW"
  | ChargeGoalMet => "Charge Goal Met"
  | AlarmSetFor _ => "Alarm set for "
  | ConnectCharger => "Connect charger to start monitoring"
  end.

(** The main display, reduced to what depends on the state. *)
Record MainDisplay : Set := mkMain {
  ringColor : RingColor;
  alarmIcon : bool;
  percentShown : number;
  percentRed : bool;
  chargingLabel : bool;
  (** the minutes of "~N min remaining", when that line is rendered *)
  remaining : option number;
  statusMessage : StatusMessage;
  interactionHint : bool
}.

Inductive Screen : Set :=
| LoadingSpinner
| BatteryNotSupported
| Main (d : MainDisplay).

Definition getRingColor (w : World) : RingColor :=
  if isAlarmActive w then RingRed
  else if charging (battery w) then RingEmerald
  else RingBlue.

Definition remainingTime (b : Battery) : option number :=
  if charging b && JS.strict_ne (chargingTime b) JS.Infinity
     && JS.gt (chargingTime b) 0%float
  then Some (JS.Math_round (chargingTime b / 60)%float)
  else None.

Definition statusOf (w : World) : StatusMessage :=
  if isAlarmActive w then UnplugChargerNow
  else if charging (battery w) && isThresholdReached w then ChargeGoalMet
  else if charging (battery w) then AlarmSetFor (threshold w)
  else ConnectCharger.

Definition mainDisplay (w : World) : MainDisplay :=
  {| ringColor := getRingColor w;
     alarmIcon := isAlarmActive w;
     percentShown := batteryPercent w;
     percentRed := isAlarmActive w;
     chargingLabel := charging (battery w);
     remaining := remainingTime (battery w);
     statusMessage := statusOf w;
     interactionHint := negb (hasInteracted w) |}.

(** The value [App] returns. *)
Definition App (w : World) : Screen :=
  if loading (battery w) then LoadingSpinner
  else if negb (supported (battery w)) then BatteryNotSupported
  else Main (mainDisplay w).

Definition statusShown (s : Screen) : option StatusMessage :=
  match s with
  | Main d => Some (statusMessage d)
  | _ => None
  end.

(** *** State updates *)

(** What can ask for a new render: [useBattery] publishing a new value,
    the settings panel calling one of the two setters it is given, and a
    click reaching the [onClick] of the main display. *)
Inductive Update : Set :=
| BatteryChange (b : Battery)
| SetThreshold (t : number)
| SetAlarmEnabled (b : bool)
| Click.

Definition withBattery (b : Battery) (w : World) : World :=
  {| battery := b;
     threshold := threshold w;
     isAlarmEnabled := isAlarmEnabled w;
     isAlarmActive := isAlarmActive w;
     hasInteracted := hasInteracted w;
     alarmDeps := alarmDeps w;
     unmountCleanup := unmountCleanup w;
     sound := sound w;
     calls := calls w |}.

Definition setThreshold (t : number) (w : World) : World :=
  {| battery := battery w;
     threshold := t;
     isAlarmEnabled := isAlarmEnabled w;
     isAlarmActive := isAlarmActive w;
     hasInteracted := hasInteracted w;
     alarmDeps := alarmDeps w;
     unmountCleanup := unmountCleanup w;
     sound := sound w;
     calls := calls w |}.

Definition setAlarmEnabled (b : bool) (w : World) : World :=
  {| battery := battery w;
     threshold := threshold w;
     isAlarmEnabled := b;
     isAlarmActive := isAlarmActive w;
     hasInteracted := hasInteracted w;
     alarmDeps := alarmDeps w;
     unmountCleanup := unmountCleanup w;
     sound := sound w;
     calls := calls w |}.

Definition setHasInteracted (b : bool) (w : World) : World :=
  {| battery := battery w;
     threshold := threshold w;
     isAlarmEnabled := isAlarmEnabled w;
     isAlarmActive := isAlarmActive w;
     hasInteracted := b;
     alarmDeps := alarmDeps w;
     unmountCleanup := unmountCleanup w;
     sound := sound w;
     calls := calls w |}.

Definition isMain (s : Screen) : bool :=
  match s with Main _ => true | _ => false end.

(** [handleInteraction], the closure of the render [shown]: it tests the
    [hasInteracted] of that render.  It is the [onClick] of the root of
    the main display, so no click reaches it while another screen is
    shown. *)
Definition handleInteraction (shown w : World) : World :=
  if isMain (App shown) then
    if negb (hasInteracted shown) then setHasInteracted true w else w
  else w.

Definition applyUpdate (shown : World) (w : World) (u : Update) : World :=
  match u with
  | BatteryChange b => withBattery b w
  | SetThreshold t => setThreshold t w
  | SetAlarmEnabled b => setAlarmEnabled b w
  | Click => handleInteraction shown w
  end.

(** The updates React batches into one render. *)
Definition applyAll (us : list Update) (w : World) : World :=
  fold_left (applyUpdate w) us w.

(** One render cycle: the batch is applied, the render is committed and
    its effects run. *)
Definition step (us : list Update) (w : World) : World :=
  flushEffects (applyAll us w).

Definition run (tr : list (list Update)) (w : World) : World :=
  fold_left (fun w us => step us w) tr w.

(** The first render: the [useState] initial values, no effect run yet. *)
Definition firstRender (b : Battery) (s : AlarmSound.t) : World :=
  {| battery := b;
     threshold := 80%float;
     isAlarmEnabled := true;
     isAlarmActive := false;
     hasInteracted := false;
     alarmDeps := None;
     unmountCleanup := false;
     sound := s;
     calls := [] |}.

Definition mount (b : Battery) (s : AlarmSound.t) : World :=
  flushEffects (firstRender b s).

(** Unmounting runs the cleanups that are registered: the alarm effect
    has none, the [[]] effect has [alarmSound.stop()]. *)
Definition unmount (w : World) : World :=
  if unmountCleanup w then
    {| battery := battery w;
       threshold := threshold w;
       isAlarmEnabled := isAlarmEnabled w;
       isAlarmActive := isAlarmActive w;
       hasInteracted := hasInteracted w;
       alarmDeps := alarmDeps w;
       unmountCleanup := false;
       sound := AlarmSound.stop (sound w);
       calls := calls w ++ [Stop] |}
  else w.

(** The worlds a mounted component goes through: after its mount, after
    each render cycle. *)
Inductive reachable : World -> Prop :=
| reach_mount b s : reachable (mount b s)
| reach_step us w : reachable w -> reachable (step us w).

(** The effects of the last render have run. *)
Definition settled (w : World) : Prop :=
  alarmDeps w = Some (depsOf w) /\ unmountCleanup w = true.

(** *** Sessions *)

(** The worlds after each render cycle of a trace. *)
Fixpoint states (tr : list (list Update)) (w : World) : list World :=
  match tr with
  | [] => []
  | us :: tr' => step us w :: states tr' (step us w)
  end.

(** The predicate as a function of the dependency array. *)
Definition allOf (d : Deps) : bool :=
  let '(a, b, c, e, f) := d in a && b && c && e && f.

(** [w'] has the effects' memory, the sound, the log and
    [isAlarmActive] of [w]. *)
Definition sameEffects (w w' : World) : Prop :=
  alarmDeps w' = alarmDeps w /\ unmountCleanup w' = unmountCleanup w /\
  sound w' = sound w /\ calls w' = calls w /\ isAlarmActive w' = isAlarmActive w.

(** The sound, [isAlarmActive] and the last call agree with the
    predicate. *)
Definition inStep (w : World) : Prop :=
  AlarmSound.running (sound w) = shouldAlarm w /\
  isAlarmActive w = shouldAlarm w /\
  exists pre, calls w = pre ++ [callFor (shouldAlarm w)].

(** An update that leaves the battery facility unsupported. *)
Definition keepsUnsupported (u : Update) : Prop :=
  match u with
  | BatteryChange b => supported b = false
  | _ => True
  end.

(** *** Concrete sessions *)

Definition stopped : AlarmSound.t := AlarmSound.mk false.

(** A value of [useBattery] while the battery manager is being fetched. *)
Definition fetching : Battery := mkBattery true true 0 false 0.

(** The battery facility is absent. *)
Definition absent : Battery := mkBattery false false 0 false 0.

(** Scenario A: plugged in at 79%, the threshold left at 80. *)
Definition batteryA : Battery := mkBattery true false 0.79 true 1800.

(** Scenario B: the level reaches 80%. *)
Definition batteryB : Battery := mkBattery true false 0.8 true 1800.

(** Scenario C: the charger is unplugged. *)
Definition batteryC : Battery := mkBattery true false 0.8 false JS.Infinity.

(** The page is opened, the battery is read, the user taps once. *)
Definition scenarioA : World :=
  run [[BatteryChange batteryA]; [Click]] (mount fetching stopped).

(** Charging, the goal reached, but the alarm switched off in the
    settings (and no tap yet). *)
Definition goalMetAlarmOff : World :=
  run [[BatteryChange batteryB]; [SetAlarmEnabled false]] (mount fetching stopped).

(** Unplugged at 90%, then plugged in: no tap has been made, so the
    predicate is false before and after. *)
Definition unplugged90 : World :=
  mount (mkBattery true false 0.9 false JS.Infinity) stopped.

Definition plugIn90 : list Update :=
  [BatteryChange (mkBattery true false 0.9 true 600)].

(** A log of calls in which [start()] is never called twice in a row. *)
Fixpoint noDoubleStart (l : list SoundCall) : bool :=
  match l with
  | [] => true
  | c :: t =>
      match c, t with
      | Start, Start :: _ => false
      | _, _ => noDoubleStart t
      end
  end.

(** The alarm is sounding: scenario A, then the level reaches 80%. *)
Definition alarming : World := step [BatteryChange batteryB] scenarioA.

(** The goal is met and the user has tapped, on the switch that turns
    the alarm off: the click also reaches the root of the main display. *)
Definition goalMetSwitchedOff : World :=
  run [[BatteryChange batteryB]; [SetAlarmEnabled false; Click]]
      (mount fetching stopped).

(** A battery manager that reports no usable level. *)
Definition batteryNaN : Battery := mkBattery true false nan true 1800.

Arguments JS.Math_round : simpl never.

(* ------------------------------------------------------------------ *)
(** ** Basic facts *)

Lemma shouldAlarm_allOf w : shouldAlarm w = allOf (depsOf w).
Proof. reflexivity. Qed.

Lemma deps_eqb_eq a b : deps_eqb a b = true <-> a = b.
Proof.
  destruct a as [[[[a1 a2] a3] a4] a5], b as [[[[b1 b2] b3] b4] b5].
  unfold deps_eqb. rewrite !andb_true_iff, !eqb_true_iff.
  split.
  - intros [[[[-> ->] ->] ->] ->]. reflexivity.
  - intros H. injection H as -> -> -> -> ->. repeat split.
Qed.

Lemma running_call b s : AlarmSound.running (AlarmSound.call (callFor b) s) = b.
Proof. destruct b, s as [[|]]; reflexivity. Qed.

(** The effects change neither the inputs of the predicate nor the
    click gate. *)
Lemma depsOf_flushEffects w : depsOf (flushEffects w) = depsOf w.
Proof.
  unfold flushEffects.
  destruct (alarmEffectDue w);
    match goal with |- context [unmountCleanup ?x] => destruct (unmountCleanup x) end;
    reflexivity.
Qed.

Lemma shouldAlarm_flushEffects w : shouldAlarm (flushEffects w) = shouldAlarm w.
Proof. rewrite !shouldAlarm_allOf, depsOf_flushEffects. reflexivity. Qed.

Lemma alarmEffectDue_false w :
  alarmEffectDue w = false <-> alarmDeps w = Some (depsOf w).
Proof.
  unfold alarmEffectDue. destruct (alarmDeps w) as [d|].
  - rewrite negb_false_iff, deps_eqb_eq. split; congruence.
  - split; discriminate.
Qed.

Lemma flushEffects_settled w : settled (flushEffects w).
Proof.
  unfold settled. rewrite depsOf_flushEffects. unfold flushEffects.
  destruct (alarmEffectDue w) eqn:Hdue.
  - destruct (unmountCleanup (alarmEffect w)) eqn:Hc; cbn; auto.
  - apply alarmEffectDue_false in Hdue.
    destruct (unmountCleanup w) eqn:Hc; cbn; auto.
Qed.

Lemma reachable_settled w : reachable w -> settled w.
Proof. intros [b s | us w' _]; apply flushEffects_settled. Qed.

(** No effect is due after the effects have run: the render that
    [setIsAlarmActive] asks for leaves the world as it is. *)
Lemma flushEffects_of_settled w : settled w -> flushEffects w = w.
Proof.
  intros [Hd Hc]. unfold flushEffects.
  apply alarmEffectDue_false in Hd. rewrite Hd, Hc. reflexivity.
Qed.

Lemma flushEffects_idempotent w :
  flushEffects (flushEffects w) = flushEffects w.
Proof. apply flushEffects_of_settled, flushEffects_settled. Qed.

(** *** Updates leave the effects' memory, the sound and the log alone *)
Lemma sameEffects_refl w : sameEffects w w.
Proof. repeat split. Qed.

Lemma sameEffects_trans w1 w2 w3 :
  sameEffects w1 w2 -> sameEffects w2 w3 -> sameEffects w1 w3.
Proof.
  unfold sameEffects. intros (a1 & a2 & a3 & a4 & a5) (b1 & b2 & b3 & b4 & b5).
  repeat split; congruence.
Qed.

Lemma applyUpdate_sameEffects shown w u : sameEffects w (applyUpdate shown w u).
Proof.
  destruct u; cbn; try (repeat split; reflexivity).
  unfold handleInteraction.
  destruct (isMain (App shown)), (negb (hasInteracted shown));
    repeat split; reflexivity.
Qed.

Lemma fold_applyUpdate_sameEffects shown us :
  forall w, sameEffects w (fold_left (applyUpdate shown) us w).
Proof.
  induction us as [|u us IH]; intros w; cbn.
  - apply sameEffects_refl.
  - eapply sameEffects_trans; [apply applyUpdate_sameEffects | apply IH].
Qed.

Lemma applyAll_sameEffects us w : sameEffects w (applyAll us w).
Proof. apply fold_applyUpdate_sameEffects. Qed.

(** *** What one render cycle does to the log *)

Lemma step_due us w :
  alarmEffectDue (applyAll us w) = true ->
  calls (step us w) = calls w ++ [callFor (shouldAlarm (step us w))] /\
  sound (step us w) = AlarmSound.call (callFor (shouldAlarm (step us w))) (sound w) /\
  isAlarmActive (step us w) = shouldAlarm (step us w).
Proof.
  intros Hdue. unfold step. rewrite shouldAlarm_flushEffects.
  destruct (applyAll_sameEffects us w) as (_ & _ & Hs & Hc & _).
  unfold flushEffects. rewrite Hdue.
  destruct (unmountCleanup (alarmEffect (applyAll us w))); cbn;
    rewrite Hs, Hc; auto.
Qed.

Lemma step_not_due us w :
  alarmEffectDue (applyAll us w) = false ->
  calls (step us w) = calls w /\ sound (step us w) = sound w /\
  isAlarmActive (step us w) = isAlarmActive w.
Proof.
  intros Hdue. unfold step.
  destruct (applyAll_sameEffects us w) as (_ & _ & Hs & Hc & Ha).
  unfold flushEffects. rewrite Hdue.
  destruct (unmountCleanup (applyAll us w)); cbn; auto.
Qed.

(** From a settled world the alarm effect is due exactly when a
    dependency changed. *)
Lemma due_iff_deps_changed us w :
  settled w ->
  alarmEffectDue (applyAll us w) = false <-> depsOf (applyAll us w) = depsOf w.
Proof.
  intros [Hd _]. rewrite alarmEffectDue_false.
  destruct (applyAll_sameEffects us w) as (Ha & _). rewrite Ha, Hd.
  split; congruence.
Qed.

(** *** The sound is in step with the predicate *)

Lemma alarmEffect_inStep w : inStep (alarmEffect w).
Proof.
  unfold inStep. change (shouldAlarm (alarmEffect w)) with (shouldAlarm w).
  cbn. rewrite running_call. repeat split. now exists (calls w).
Qed.

Lemma mount_inStep b s : inStep (mount b s).
Proof.
  unfold mount, flushEffects. cbn -[alarmEffect].
  apply alarmEffect_inStep.
Qed.

Lemma step_inStep us w : settled w -> inStep w -> inStep (step us w).
Proof.
  intros Hset (Hr & Ha & pre & Hc).
  destruct (alarmEffectDue (applyAll us w)) eqn:Hdue.
  - destruct (step_due us w Hdue) as (Hc' & Hs' & Ha').
    unfold inStep. rewrite Hs', running_call. repeat split; auto.
    now exists (calls w).
  - destruct (step_not_due us w Hdue) as (Hc' & Hs' & Ha').
    assert (Hp : shouldAlarm (step us w) = shouldAlarm w).
    { unfold step. rewrite shouldAlarm_flushEffects, !shouldAlarm_allOf.
      f_equal. now apply due_iff_deps_changed. }
    unfold inStep. rewrite Hp, Hs', Ha', Hc'. repeat split; auto.
    now exists pre.
Qed.

Lemma reachable_inStep w : reachable w -> inStep w.
Proof.
  induction 1 as [b s | us w Hw IH].
  - apply mount_inStep.
  - apply step_inStep; auto using reachable_settled.
Qed.

Lemma reachable_run tr : forall w, reachable w -> reachable (run tr w).
Proof.
  induction tr as [|us tr IH]; intros w Hw; cbn; auto.
  apply IH. now constructor.
Qed.

(** [Math.round] on the values of the scenarios ([0.79 * 100] is the
    double 79.00000000000001), on ties, and on the special values. *)
Example Math_round_values :
  JS.Math_round (0.79 * 100)%float = 79%float /\
  JS.Math_round (0.8 * 100)%float = 80%float /\
  JS.Math_round (0.795 * 100)%float = 80%float /\
  JS.Math_round 2.5%float = 3%float /\
  JS.Math_round (-2.5)%float = (-2)%float /\
  JS.Math_round 0.49999999999999994%float = 0%float /\
  JS.Math_round (1800 / 60)%float = 30%float /\
  JS.Math_round JS.Infinity = JS.Infinity /\
  PrimFloat.is_nan (JS.Math_round nan) = true.
Proof. vm_compute. repeat split. Qed.

(* ------------------------------------------------------------------ *)
(** ** The alarm predicate *)

(** C1.  For every combination of supported, charging, level, threshold,
    enabled and granted, the value the alarm effect computes -- and
    stores in [isAlarmActive] -- is true if and only if the battery is
    supported, it is charging, [Math.round(level * 100) >= threshold],
    the alarm is enabled and the user has interacted.  In scenario A
    (supported, charging, enabled, granted, threshold 80, level 0.79)
    it is false: the rounded percentage is 79. *)
Theorem shouldAlarm_spec :
  (forall w : World,
      shouldAlarm w = true <->
      supported (battery w) = true /\
      charging (battery w) = true /\
      JS.ge (JS.Math_round (level (battery w) * 100)%float) (threshold w) = true /\
      isAlarmEnabled w = true /\
      hasInteracted w = true) /\
  (forall w : World, isAlarmActive (alarmEffect w) = shouldAlarm w) /\
  (forall (ct : number) (ld a : bool) (d : option Deps) (c : bool)
          (s : AlarmSound.t) (l : list SoundCall),
      shouldAlarm
        (mkWorld (mkBattery true ld 0.79 true ct) 80 true a true d c s l)
      = false) /\
  batteryPercent scenarioA = 79%float /\
  shouldAlarm scenarioA = false.
Proof.
  split; [|split; [|split; [|split]]].
  - intros w. unfold shouldAlarm, isThresholdReached, batteryPercent.
    rewrite !andb_true_iff. tauto.
  - reflexivity.
  - intros. vm_compute. reflexivity.
  - vm_compute. reflexivity.
  - vm_compute. reflexivity.
Qed.

(* ------------------------------------------------------------------ *)
(** ** The display *)

Lemma App_main w d :
  App w = Main d <->
  loading (battery w) = false /\ supported (battery w) = true /\
  d = mainDisplay w.
Proof.
  unfold App.
  destruct (loading (battery w)), (supported (battery w)); cbn;
    split; try (intros H; now inversion H); try (intros (? & ? & ?); discriminate).
  intros (_ & _ & ->). reflexivity.
Qed.

(** C8.  The "~N min remaining" line of the main display is rendered if
    and only if [charging] is true, [chargingTime !== Infinity] and
    [chargingTime > 0], and then N is [Math.round(chargingTime / 60)].
    The charging time is a plain number: "unknown" is the number
    Infinity, for which the line is left out, and there is no other
    tagged case (a NaN fails [> 0] and is left out as well). *)
Theorem remaining_time_shown_iff :
  (forall (w : World) (m : number),
      remaining (mainDisplay w) = Some m <->
      charging (battery w) = true /\
      JS.strict_ne (chargingTime (battery w)) JS.Infinity = true /\
      JS.gt (chargingTime (battery w)) 0%float = true /\
      m = JS.Math_round (chargingTime (battery w) / 60)%float) /\
  (forall (w : World) (d : MainDisplay) (m : number),
      App w = Main d ->
      (remaining d = Some m <->
       charging (battery w) = true /\
       JS.strict_ne (chargingTime (battery w)) JS.Infinity = true /\
       JS.gt (chargingTime (battery w)) 0%float = true /\
       m = JS.Math_round (chargingTime (battery w) / 60)%float)) /\
  (forall (sup ld chg : bool) (lv : number),
      remainingTime (mkBattery sup ld lv chg JS.Infinity) = None /\
      remainingTime (mkBattery sup ld lv chg nan) = None /\
      remainingTime (mkBattery sup ld lv chg 0) = None) /\
  remainingTime batteryB = Some 30%float.
Proof.
  assert (H : forall (w : World) (m : number),
      remaining (mainDisplay w) = Some m <->
      charging (battery w) = true /\
      JS.strict_ne (chargingTime (battery w)) JS.Infinity = true /\
      JS.gt (chargingTime (battery w)) 0%float = true /\
      m = JS.Math_round (chargingTime (battery w) / 60)%float).
  { intros w m.
    change (remaining (mainDisplay w)) with (remainingTime (battery w)).
    unfold remainingTime.
    destruct (charging (battery w)),
             (JS.strict_ne (chargingTime (battery w)) JS.Infinity),
             (JS.gt (chargingTime (battery w)) 0%float); cbn [andb];
      split; try discriminate; try (intros (? & ? & ? & ?); discriminate).
    - intros E. injection E as <-. auto.
    - intros (_ & _ & _ & ->). reflexivity. }
  split; [exact H|split; [|split]].
  - intros w d m Hd. apply App_main in Hd. destruct Hd as (_ & _ & ->). apply H.
  - intros. unfold remainingTime. cbn. rewrite !andb_false_r. auto.
  - vm_compute. reflexivity.
Qed.

(** C9.  The percentage written in the centre of the ring is
    [Math.round(level * 100)], the very value the alarm predicate
    compares with the threshold, and the threshold written in the
    "Alarm set for" line is the one compared: the level condition of the
    alarm holds if and only if the displayed percentage is at least the
    displayed threshold. *)
Theorem displayed_percent_is_compared_percent :
  forall (w : World) (d : MainDisplay),
    App w = Main d ->
    percentShown d = JS.Math_round (level (battery w) * 100)%float /\
    percentShown d = batteryPercent w /\
    (forall t, statusMessage d = AlarmSetFor t -> t = threshold w) /\
    (isThresholdReached w = true <-> JS.ge (percentShown d) (threshold w) = true) /\
    shouldAlarm w =
      supported (battery w) && charging (battery w)
      && JS.ge (percentShown d) (threshold w)
      && isAlarmEnabled w && hasInteracted w.
Proof.
  intros w d Hd. apply App_main in Hd. destruct Hd as (_ & _ & ->).
  repeat split; try tauto.
  cbn. unfold statusOf.
  destruct (isAlarmActive w); [discriminate|].
  destruct (charging (battery w) && isThresholdReached w); [discriminate|].
  destruct (charging (battery w)); [|discriminate].
  intros t E. now injection E as <-.
Qed.

Lemma displayed_percent_is_compared_percent_witness :
  percentShown (mainDisplay scenarioA) = 79%float /\
  shouldAlarm scenarioA = false.
Proof.
  destruct (displayed_percent_is_compared_percent scenarioA (mainDisplay scenarioA))
    as (H1 & _ & _ & _ & H5).
  - vm_compute. reflexivity.
  - split.
    + rewrite H1. vm_compute. reflexivity.
    + rewrite H5. vm_compute. reflexivity.
Defined.

(** C10, as stated, fails on the first render of every session: while
    the battery manager is being fetched [App] returns the spinner, and
    when the facility is absent it returns the "not supported" screen;
    neither shows any of the four status messages. *)
Lemma loading_screen_shows_no_status_message :
  App (mount fetching stopped) = LoadingSpinner /\
  statusShown (App (mount fetching stopped)) = None /\
  App (mount absent stopped) = BatteryNotSupported /\
  statusShown (App (mount absent stopped)) = None.
Proof. vm_compute. repeat split. Qed.

(** C10, amended.  Whenever the main display is rendered ([loading]
    false and [supported] true) exactly one of the four status messages
    is shown, chosen by priority on the [isAlarmActive] state: "UNPLUG
    CHARGER NOW" if it is set; else "Charge Goal Met" if charging and
    the threshold is reached; else "Alarm set for threshold%" if
    charging; else the "Connect charger" prompt.  The other two screens
    show none.  After every render cycle of a session [isAlarmActive] is
    the alarm predicate, so when charging and the threshold is reached
    but the predicate is false (alarm disabled, or no interaction yet)
    the main display shows "Charge Goal Met". *)
Theorem status_message_priority :
  (forall (w : World) (d : MainDisplay),
      App w = Main d ->
      statusMessage d =
        if isAlarmActive w then UnplugChargerNow
        else if charging (battery w) && isThresholdReached w then ChargeGoalMet
        else if charging (battery w) then AlarmSetFor (threshold w)
        else ConnectCharger) /\
  (forall w : World,
      statusShown (App w) =
        if loading (battery w) || negb (supported (battery w)) then None
        else Some (statusOf w)) /\
  (forall (b : Battery) (s : AlarmSound.t) (tr : list (list Update)) (d : MainDisplay),
      let w := run tr (mount b s) in
      App w = Main d ->
      charging (battery w) = true ->
      isThresholdReached w = true ->
      shouldAlarm w = false ->
      statusMessage d = ChargeGoalMet).
Proof.
  split; [|split].
  - intros w d Hd. apply App_main in Hd. destruct Hd as (_ & _ & ->). reflexivity.
  - intros w. unfold App.
    destruct (loading (battery w)), (supported (battery w)); reflexivity.
  - intros b s tr d w Hd Hc Hr Hp.
    apply App_main in Hd. destruct Hd as (_ & _ & ->).
    assert (Hin : inStep w) by (apply reachable_inStep, reachable_run; constructor).
    destruct Hin as (_ & Ha & _).
    cbn. unfold statusOf. rewrite Ha, Hp, Hc, Hr. reflexivity.
Qed.

Lemma status_message_priority_witness :
  shouldAlarm goalMetAlarmOff = false /\
  statusShown (App goalMetAlarmOff) = Some ChargeGoalMet.
Proof.
  split; [vm_compute; reflexivity|].
  assert (H : statusMessage (mainDisplay goalMetAlarmOff) = ChargeGoalMet).
  { apply (proj2 (proj2 status_message_priority) fetching stopped
                 [[BatteryChange batteryB]; [SetAlarmEnabled false]]);
      vm_compute; reflexivity. }
  change (App goalMetAlarmOff) with (Main (mainDisplay goalMetAlarmOff)).
  cbn [statusShown]. rewrite H. reflexivity.
Defined.

(** A render between an update and the effect it triggers still holds
    the previous [isAlarmActive]: when the alarm is sounding and the
    user switches it off, that render shows the alarm message although
    the predicate is already false; the effect then corrects it. *)
Example stale_render_keeps_alarm_message :
  let w := run [[BatteryChange batteryB]; [Click]] (mount fetching stopped) in
  let w1 := applyAll [SetAlarmEnabled false] w in
  shouldAlarm w = true /\
  shouldAlarm w1 = false /\
  statusShown (App w1) = Some UnplugChargerNow /\
  statusShown (App (flushEffects w1)) = Some ChargeGoalMet.
Proof. vm_compute. repeat split. Qed.

(* ------------------------------------------------------------------ *)
(** ** Sessions in which the alarm predicate stays false *)

Lemma step_calls_cases us w :
  calls (step us w) = calls w \/
  calls (step us w) = calls w ++ [callFor (shouldAlarm (step us w))].
Proof.
  destruct (alarmEffectDue (applyAll us w)) eqn:Hdue.
  - right. apply step_due, Hdue.
  - left. apply step_not_due, Hdue.
Qed.

Lemma only_stops_while_false tr :
  forall w,
    Forall (fun w' => shouldAlarm w' = false) (states tr w) ->
    exists n, calls (run tr w) = calls w ++ repeat Stop n.
Proof.
  induction tr as [|us tr IH]; intros w Hall.
  - exists 0. cbn. now rewrite app_nil_r.
  - change (run (us :: tr) w) with (run tr (step us w)).
    cbn [states] in Hall. inversion Hall as [|? ? Hp Hrest]; subst.
    destruct (IH _ Hrest) as [n Hn]. rewrite Hn.
    destruct (step_calls_cases us w) as [-> | ->].
    + now exists n.
    + rewrite Hp. exists (S n). cbn. now rewrite <- app_assoc.
Qed.

(** C7, as stated, fails while [loading] is set: [App] tests [loading]
    before [supported], so a battery value with [supported] false and
    [loading] true is rendered as the spinner, not as the "not
    supported" screen. *)
Lemma unsupported_while_loading_shows_spinner :
  supported (mkBattery false true 0 false 0) = false /\
  App (mount (mkBattery false true 0 false 0) stopped) = LoadingSpinner /\
  App (mount (mkBattery false true 0 false 0) stopped) <> BatteryNotSupported.
Proof. vm_compute. repeat split. discriminate. Qed.

Lemma fold_applyUpdate_unsupported shown us :
  Forall keepsUnsupported us ->
  forall w, supported (battery w) = false ->
            supported (battery (fold_left (applyUpdate shown) us w)) = false.
Proof.
  induction 1 as [|u us Hu _ IH]; intros w Hw; cbn; auto.
  apply IH. destruct u; cbn in *; auto.
  unfold handleInteraction.
  destruct (isMain (App shown)), (negb (hasInteracted shown)); auto.
Qed.

Lemma battery_flushEffects w : battery (flushEffects w) = battery w.
Proof.
  unfold flushEffects.
  destruct (alarmEffectDue w);
    match goal with |- context [unmountCleanup ?x] => destruct (unmountCleanup x) end;
    reflexivity.
Qed.

Lemma step_unsupported us w :
  Forall keepsUnsupported us -> supported (battery w) = false ->
  supported (battery (step us w)) = false.
Proof.
  intros Hus Hw. unfold step. rewrite battery_flushEffects.
  now apply fold_applyUpdate_unsupported.
Qed.

Lemma unsupported_shouldAlarm w : supported (battery w) = false -> shouldAlarm w = false.
Proof. intros H. unfold shouldAlarm. now rewrite H. Qed.

Lemma states_unsupported tr :
  Forall (Forall keepsUnsupported) tr ->
  forall w, supported (battery w) = false ->
            supported (battery (run tr w)) = false /\
            Forall (fun w' => shouldAlarm w' = false) (states tr w).
Proof.
  induction 1 as [|us tr Hus _ IH]; intros w Hw; [cbn; auto|].
  change (run (us :: tr) w) with (run tr (step us w)). cbn [states].
  pose proof (step_unsupported us w Hus Hw) as Hs.
  destruct (IH _ Hs) as [H1 H2]. split; auto.
  constructor; auto using unsupported_shouldAlarm.
Qed.

(** C7, amended.  Whenever [supported] is false the main display is not
    rendered: the "not supported" screen is shown once [loading] is
    false, the spinner while it is true.  The alarm predicate is false
    whatever charging, level, threshold, enabled and granted are; after
    every render cycle in which [supported] is false [isAlarmActive] is
    false; and in a session in which [supported] stays false only
    [stop()] is ever called. *)
Theorem unsupported_never_alarms :
  (forall w : World,
      supported (battery w) = false ->
      App w = (if loading (battery w) then LoadingSpinner else BatteryNotSupported) /\
      (loading (battery w) = false -> App w = BatteryNotSupported) /\
      isMain (App w) = false /\
      shouldAlarm w = false /\
      isAlarmActive (alarmEffect w) = false) /\
  (forall (b : Battery) (s : AlarmSound.t) (tr : list (list Update)),
      let w := run tr (mount b s) in
      supported (battery w) = false ->
      isAlarmActive w = false) /\
  (forall (b : Battery) (s : AlarmSound.t) (tr : list (list Update)),
      supported b = false ->
      Forall (Forall keepsUnsupported) tr ->
      let w := run tr (mount b s) in
      supported (battery w) = false /\
      shouldAlarm w = false /\
      isAlarmActive w = false /\
      exists n, calls w = repeat Stop (S n)).
Proof.
  split; [|split].
  - intros w Hs. pose proof (unsupported_shouldAlarm w Hs) as Hp.
    unfold App. rewrite Hs. cbn [negb].
    destruct (loading (battery w)); cbn; repeat split; auto; discriminate.
  - intros b s tr w Hs.
    assert (Hin : inStep w) by (apply reachable_inStep, reachable_run; constructor).
    destruct Hin as (_ & Ha & _).
    rewrite Ha. now apply unsupported_shouldAlarm.
  - intros b s tr Hb Htr w.
    assert (Hm : supported (battery (mount b s)) = false).
    { unfold mount. now rewrite battery_flushEffects. }
    destruct (states_unsupported tr Htr _ Hm) as [Hs Hall].
    pose proof (unsupported_shouldAlarm _ Hs) as Hp.
    assert (Hin : inStep w) by (apply reachable_inStep, reachable_run; constructor).
    destruct Hin as (_ & Ha & _).
    fold w in Hs, Hp. rewrite Ha, Hp. repeat split; auto.
    destruct (only_stops_while_false tr _ Hall) as [n Hn].
    exists n. subst w. rewrite Hn.
    assert (Hc : calls (mount b s) = [Stop]).
    { unfold mount, flushEffects. cbn -[alarmEffect].
      pose proof (unsupported_shouldAlarm (firstRender b s) Hb) as Hf.
      destruct (unmountCleanup _); cbn; rewrite Hf; reflexivity. }
    rewrite Hc. reflexivity.
Qed.

Lemma unsupported_never_alarms_witness :
  let w := run [[Click]; [SetThreshold 0; SetAlarmEnabled true]] (mount absent stopped) in
  App w = BatteryNotSupported /\
  isAlarmActive w = false.
Proof.
  cbv zeta.
  destruct (proj2 (proj2 unsupported_never_alarms) absent stopped
              [[Click]; [SetThreshold 0; SetAlarmEnabled true]])
    as (Hs & _ & Ha & _).
  - reflexivity.
  - repeat constructor.
  - split; [|assumption].
    apply (proj1 unsupported_never_alarms); [exact Hs | vm_compute; reflexivity].
Defined.

(* ------------------------------------------------------------------ *)
(** ** The alarm effect and the sound *)

(** C3.  Every run of the alarm effect leaves the sound running exactly
    when the predicate it has just computed is true, having called
    [start()] in that case and [stop()] otherwise, and stores the same
    value in [isAlarmActive].  Hence after every render cycle of a
    session the sound, [isAlarmActive] and the predicate agree, and the
    last call made on the sound is the one for the current predicate. *)
Theorem sound_follows_predicate :
  (forall w : World,
      shouldAlarm (alarmEffect w) = shouldAlarm w /\
      isAlarmActive (alarmEffect w) = shouldAlarm w /\
      AlarmSound.running (sound (alarmEffect w)) = shouldAlarm w /\
      calls (alarmEffect w) = calls w ++ [if shouldAlarm w then Start else Stop]) /\
  (forall (b : Battery) (s : AlarmSound.t) (tr : list (list Update)),
      let w := run tr (mount b s) in
      AlarmSound.running (sound w) = shouldAlarm w /\
      isAlarmActive w = shouldAlarm w /\
      exists pre, calls w = pre ++ [if shouldAlarm w then Start else Stop]).
Proof.
  split.
  - intros w. repeat split. cbn. apply running_call.
  - intros b s tr w.
    apply (reachable_inStep w). apply reachable_run. constructor.
Qed.

Lemma allOf_true d : allOf d = true -> d = (true, true, true, true, true).
Proof.
  destruct d as [[[[a1 a2] a3] a4] a5]. cbn.
  destruct a1, a2, a3, a4, a5; cbn; congruence.
Qed.

(** C2, as stated, fails: plugging the charger in before the first tap
    changes a dependency ([charging]), so the effect runs again; the
    predicate is false as it was, and [stop()] is called once more. *)
Lemma unchanged_predicate_still_calls_stop :
  depsOf (step plugIn90 unplugged90) <> depsOf unplugged90 /\
  shouldAlarm unplugged90 = false /\
  shouldAlarm (step plugIn90 unplugged90) = false /\
  calls unplugged90 = [Stop] /\
  calls (step plugIn90 unplugged90) = [Stop; Stop].
Proof. vm_compute. repeat split. discriminate. Qed.

(** C2, amended.  After a render in which no dependency of the alarm
    effect changed, no call is made on the sound.  After a render in
    which one changed, the effect runs and makes exactly one call:
    [start()] if the predicate is true, [stop()] if it is false.  When
    the predicate has the value it had at the previous run, that value
    is false and the call is a repeated [stop()]. *)
Theorem alarm_effect_calls_on_every_run :
  forall (w : World) (us : list Update),
    settled w ->
    (depsOf (applyAll us w) = depsOf w ->
       calls (step us w) = calls w) /\
    (depsOf (applyAll us w) <> depsOf w ->
       calls (step us w) =
         calls w ++ [if shouldAlarm (step us w) then Start else Stop]) /\
    (depsOf (applyAll us w) <> depsOf w ->
     shouldAlarm (step us w) = shouldAlarm w ->
       shouldAlarm (step us w) = false /\
       calls (step us w) = calls w ++ [Stop]).
Proof.
  intros w us Hset.
  assert (Hdue : depsOf (applyAll us w) <> depsOf w ->
                 alarmEffectDue (applyAll us w) = true).
  { intros Hne. destruct (alarmEffectDue (applyAll us w)) eqn:E; auto.
    apply (due_iff_deps_changed us w Hset) in E. contradiction. }
  split; [|split].
  - intros Heq. apply (due_iff_deps_changed us w Hset) in Heq.
    apply (step_not_due us w Heq).
  - intros Hne. apply step_due, Hdue, Hne.
  - intros Hne Hsame.
    destruct (step_due us w (Hdue Hne)) as (Hc & Hs & _).
    assert (Hf : shouldAlarm (step us w) = false).
    { destruct (shouldAlarm (step us w)) eqn:E; auto. exfalso. apply Hne.
      unfold step in E. rewrite shouldAlarm_flushEffects in E.
      symmetry in Hsame. rewrite shouldAlarm_allOf in E, Hsame.
      apply allOf_true in E, Hsame. congruence. }
    rewrite Hf in Hc. split; auto.
Qed.

Lemma alarm_effect_calls_on_every_run_witness :
  calls (step plugIn90 unplugged90) = calls unplugged90 ++ [Stop] /\
  calls (step [SetThreshold 50] unplugged90) = calls unplugged90.
Proof.
  assert (Hset : settled unplugged90) by (split; vm_compute; reflexivity).
  split.
  - apply (alarm_effect_calls_on_every_run unplugged90 plugIn90 Hset).
    + vm_compute. discriminate.
    + vm_compute. reflexivity.
  - apply (alarm_effect_calls_on_every_run unplugged90 [SetThreshold 50] Hset).
    vm_compute. reflexivity.
Defined.

(** C4.  From any state of scenario A (supported, charging, enabled,
    granted, threshold 80, level 0.79, the effects run), where the
    predicate is false: when the level becomes 0.80 and nothing else
    changes, the predicate and [isAlarmActive] become true and the
    render cycle calls [start()] exactly once; when charging then
    becomes false, they become false and the render cycle calls
    [stop()] exactly once; and as long as the predicate evaluates false
    in the render cycles that follow, every further call is a
    [stop()]. *)
Theorem scenario_A_B_C :
  forall (w : World) (ctC : number),
    settled w ->
    supported (battery w) = true ->
    charging (battery w) = true ->
    level (battery w) = 0.79%float ->
    threshold w = 80%float ->
    isAlarmEnabled w = true ->
    hasInteracted w = true ->
    let bB := mkBattery true (loading (battery w)) 0.8 true (chargingTime (battery w)) in
    let wB := step [BatteryChange bB] w in
    let bC := mkBattery true (loading (battery w)) 0.8 false ctC in
    let wC := step [BatteryChange bC] wB in
    shouldAlarm w = false /\
    (shouldAlarm wB = true /\ isAlarmActive wB = true /\
     calls wB = calls w ++ [Start]) /\
    (shouldAlarm wC = false /\ isAlarmActive wC = false /\
     calls wC = calls wB ++ [Stop]) /\
    (forall tr : list (list Update),
        Forall (fun w' => shouldAlarm w' = false) (states tr wC) ->
        exists n, calls (run tr wC) = calls w ++ [Start; Stop] ++ repeat Stop n).
Proof.
  intros [[sup ld lv chg ct] th en act inter deps cl [r] cs] ctC [Hd Hc].
  intros Hsup Hchg Hlv Hth Hen Hint bB wB bC wC.
  cbn in Hc, Hsup, Hchg, Hlv, Hth, Hen, Hint. subst.
  vm_compute in Hd. subst deps.
  assert (HB : calls wB = cs ++ [Start]) by (vm_compute; reflexivity).
  assert (HC : calls wC = calls wB ++ [Stop]) by (vm_compute; reflexivity).
  split; [vm_compute; reflexivity|].
  split; [repeat split; vm_compute; reflexivity|].
  split; [repeat split; vm_compute; reflexivity|].
  intros tr Hall.
  destruct (only_stops_while_false tr wC Hall) as [n Hn].
  exists n. rewrite Hn, HC, HB. cbn [calls]. now rewrite <- !app_assoc.
Qed.

Lemma scenario_A_B_C_witness :
  calls scenarioA = [Stop; Stop; Stop] /\
  calls (step [BatteryChange batteryB] scenarioA) = [Stop; Stop; Stop; Start] /\
  calls (step [BatteryChange batteryC] (step [BatteryChange batteryB] scenarioA))
  = [Stop; Stop; Stop; Start; Stop].
Proof.
  destruct (scenario_A_B_C scenarioA JS.Infinity) as (_ & (_ & _ & HB) & (_ & _ & HC) & _);
    try (vm_compute; reflexivity).
  - split; vm_compute; reflexivity.
  - split; [vm_compute; reflexivity|]. split.
    + exact HB.
    + exact HC.
Defined.

(* ------------------------------------------------------------------ *)
(** ** The interaction gate *)

Lemma hasInteracted_flushEffects w :
  hasInteracted (flushEffects w) = hasInteracted w.
Proof.
  unfold flushEffects.
  destruct (alarmEffectDue w);
    match goal with |- context [unmountCleanup ?x] => destruct (unmountCleanup x) end;
    reflexivity.
Qed.

Lemma applyUpdate_keeps_gate shown w u :
  hasInteracted w = true -> hasInteracted (applyUpdate shown w u) = true.
Proof.
  intros H. destruct u; cbn; auto.
  unfold handleInteraction.
  destruct (isMain (App shown)), (negb (hasInteracted shown)); auto.
Qed.

Lemma fold_applyUpdate_keeps_gate shown us :
  forall w, hasInteracted w = true ->
            hasInteracted (fold_left (applyUpdate shown) us w) = true.
Proof.
  induction us as [|u us IH]; intros w H; cbn; auto.
  apply IH. now apply applyUpdate_keeps_gate.
Qed.

Lemma step_keeps_gate us w :
  hasInteracted w = true -> hasInteracted (step us w) = true.
Proof.
  intros H. unfold step. rewrite hasInteracted_flushEffects.
  now apply fold_applyUpdate_keeps_gate.
Qed.

(** C5.  [hasInteracted] starts false; the first click that reaches the
    main display sets it; nothing but such a click changes it; and once
    it is true it is true after every update, every effect, every render
    cycle and so for the rest of the session: no operation sets it back
    to false. *)
Theorem hasInteracted_monotonic :
  (forall (b : Battery) (s : AlarmSound.t),
      hasInteracted (firstRender b s) = false /\
      hasInteracted (mount b s) = false) /\
  (forall w : World,
      isMain (App w) = true -> hasInteracted w = false ->
      hasInteracted (step [Click] w) = true) /\
  (forall (shown w : World) (u : Update),
      u <> Click ->
      hasInteracted (applyUpdate shown w u) = hasInteracted w) /\
  (forall (shown w : World) (u : Update),
      hasInteracted w = true -> hasInteracted (applyUpdate shown w u) = true) /\
  (forall w : World,
      hasInteracted (flushEffects w) = hasInteracted w) /\
  (forall (us : list Update) (w : World),
      hasInteracted w = true -> hasInteracted (step us w) = true) /\
  (forall (tr : list (list Update)) (w : World),
      hasInteracted w = true -> hasInteracted (run tr w) = true).
Proof.
  repeat match goal with |- _ /\ _ => split end.
  - intros b s. split; [reflexivity|].
    unfold mount. now rewrite hasInteracted_flushEffects.
  - intros w Hm Hi. unfold step. rewrite hasInteracted_flushEffects.
    cbn. unfold handleInteraction. now rewrite Hm, Hi.
  - intros shown w u Hu. destruct u; try reflexivity. congruence.
  - apply applyUpdate_keeps_gate.
  - apply hasInteracted_flushEffects.
  - apply step_keeps_gate.
  - induction tr as [|us tr IH]; intros w H; cbn; auto.
    apply IH. now apply step_keeps_gate.
Qed.

Lemma hasInteracted_monotonic_witness :
  hasInteracted scenarioA = true /\
  hasInteracted
    (run [[Click]; [BatteryChange batteryC; SetAlarmEnabled false]; [Click];
          [BatteryChange absent]; [SetThreshold 20]] scenarioA) = true.
Proof.
  assert (H : hasInteracted scenarioA = true) by (vm_compute; reflexivity).
  split; [exact H|].
  apply (proj2 (proj2 (proj2 (proj2 (proj2 (proj2 hasInteracted_monotonic)))))).
  exact H.
Defined.

(* ------------------------------------------------------------------ *)
(** ** Unmounting *)

Lemma unmount_registered w :
  unmountCleanup w = true -> calls (unmount w) = calls w ++ [Stop].
Proof. intros H. unfold unmount. rewrite H. reflexivity. Qed.

(** C6.  At any point of a session -- after any number of render
    cycles, and also when updates have been applied whose effects have
    not run yet -- unmounting the component calls [stop()] on the sound,
    whether the alarm is active or not. *)
Theorem unmount_always_stops :
  forall (b : Battery) (s : AlarmSound.t) (tr : list (list Update))
         (us : list Update),
    let w := run tr (mount b s) in
    let pending := applyAll us w in
    calls (unmount w) = calls w ++ [Stop] /\
    calls (unmount pending) = calls w ++ [Stop] /\
    calls (unmount (flushEffects pending)) = calls (step us w) ++ [Stop].
Proof.
  intros b s tr us w pending.
  assert (Hw : reachable w) by (apply reachable_run; constructor).
  destruct (reachable_settled w Hw) as [_ Hc].
  destruct (applyAll_sameEffects us w) as (_ & Hc' & _ & Hcalls & _).
  fold pending in Hc', Hcalls.
  split; [|split].
  - now apply unmount_registered.
  - rewrite <- Hcalls. apply unmount_registered. congruence.
  - apply unmount_registered. apply flushEffects_settled.
Qed.

(** Both states of the evaluator occur: the alarm sounding when the
    component is unmounted, and the alarm idle. *)
Example unmount_while_alarming :
  let w := step [BatteryChange batteryB] scenarioA in
  isAlarmActive w = true /\
  calls (unmount w) = [Stop; Stop; Stop; Start; Stop].
Proof. vm_compute. repeat split. Qed.

Example unmount_while_idle :
  isAlarmActive scenarioA = false /\
  calls (unmount scenarioA) = [Stop; Stop; Stop; Stop].
Proof. vm_compute. repeat split. Qed.

(* ------------------------------------------------------------------ *)
(** ** Further properties of the alarm effect *)

Lemma gate_closed_no_alarm w : hasInteracted w = false -> shouldAlarm w = false.
Proof. intros H. unfold shouldAlarm. rewrite H. apply andb_false_r. Qed.

Lemma mount_calls b s : calls (mount b s) = [Stop].
Proof.
  unfold mount, flushEffects. cbn -[alarmEffect].
  pose proof (gate_closed_no_alarm (firstRender b s) eq_refl) as Hf.
  destruct (unmountCleanup _); cbn; rewrite Hf; reflexivity.
Qed.

Lemma run_keeps_gate tr :
  forall w, hasInteracted w = true -> hasInteracted (run tr w) = true.
Proof.
  induction tr as [|us tr IH]; intros w H; cbn; auto.
  apply IH. now apply step_keeps_gate.
Qed.

Lemma gate_closed_throughout tr :
  forall w, hasInteracted (run tr w) = false ->
            Forall (fun w' => shouldAlarm w' = false) (states tr w).
Proof.
  induction tr as [|us tr IH]; intros w H; cbn [states]; constructor.
  - apply gate_closed_no_alarm.
    destruct (hasInteracted (step us w)) eqn:E; auto.
    change (run (us :: tr) w) with (run tr (step us w)) in H.
    now rewrite (run_keeps_gate tr _ E) in H.
  - apply IH. exact H.
Qed.

(** X1.  Before the first tap on the main display the sound is never
    started: in a session in which [hasInteracted] is still false,
    [isAlarmActive] is false and every call made so far, the one at
    mount included, is a [stop()]. *)
Theorem no_start_before_first_tap :
  forall (b : Battery) (s : AlarmSound.t) (tr : list (list Update)),
    let w := run tr (mount b s) in
    hasInteracted w = false ->
    isAlarmActive w = false /\ exists n, calls w = repeat Stop (S n).
Proof.
  intros b s tr w H.
  assert (Hin : inStep w) by (apply reachable_inStep, reachable_run; constructor).
  destruct Hin as (_ & Ha & _). split.
  - rewrite Ha. now apply gate_closed_no_alarm.
  - destruct (only_stops_while_false tr _ (gate_closed_throughout tr _ H)) as [n Hn].
    exists n. subst w. rewrite Hn, mount_calls. reflexivity.
Qed.

Lemma no_start_before_first_tap_witness :
  calls goalMetAlarmOff = [Stop; Stop; Stop].
Proof.
  destruct (no_start_before_first_tap fetching stopped
              [[BatteryChange batteryB]; [SetAlarmEnabled false]])
    as (_ & n & Hn).
  - vm_compute. reflexivity.
  - destruct n as [|[|[|n]]]; try (vm_compute in Hn; discriminate Hn).
    exact Hn.
Defined.

Lemma noDoubleStart_app_Stop l :
  noDoubleStart (l ++ [Stop]) = noDoubleStart l.
Proof.
  induction l as [|c t IH]; [reflexivity|].
  destruct c; cbn [app noDoubleStart]; auto.
  destruct t as [|[|] t']; cbn [app] in *; auto.
Qed.

Lemma noDoubleStart_app_Stop_Start l :
  noDoubleStart (l ++ [Stop; Start]) = noDoubleStart l.
Proof.
  induction l as [|c t IH]; [reflexivity|].
  destruct c; cbn [app noDoubleStart]; auto.
  destruct t as [|[|] t']; cbn [app] in *; auto.
Qed.

Lemma due_changes_deps us w :
  settled w -> alarmEffectDue (applyAll us w) = true ->
  depsOf (applyAll us w) <> depsOf w.
Proof.
  intros Hset Hdue Heq. apply (due_iff_deps_changed us w Hset) in Heq.
  congruence.
Qed.

Lemma shouldAlarm_step us w : shouldAlarm (step us w) = allOf (depsOf (applyAll us w)).
Proof. unfold step. now rewrite shouldAlarm_flushEffects. Qed.

(** When the effect runs and finds the predicate true, it was false at
    the previous run. *)
Lemma rising_edge us w :
  settled w -> alarmEffectDue (applyAll us w) = true ->
  shouldAlarm (step us w) = true -> shouldAlarm w = false.
Proof.
  intros Hset Hdue Hp. destruct (shouldAlarm w) eqn:E; auto.
  exfalso. apply (due_changes_deps us w Hset Hdue).
  rewrite shouldAlarm_step in Hp. rewrite shouldAlarm_allOf in E.
  apply allOf_true in Hp, E. congruence.
Qed.

Lemma reachable_log_shape w :
  reachable w ->
  noDoubleStart (calls w) = true /\ hd_error (calls w) = Some Stop.
Proof.
  induction 1 as [b s | us w Hw [IHn IHh]].
  - rewrite mount_calls. split; reflexivity.
  - pose proof (reachable_settled w Hw) as Hset.
    destruct (alarmEffectDue (applyAll us w)) eqn:Hdue.
    + destruct (step_due us w Hdue) as (Hc & _). rewrite Hc. split.
      * destruct (shouldAlarm (step us w)) eqn:Hp; cbn [callFor].
        -- pose proof (rising_edge us w Hset Hdue Hp) as Hprev.
           destruct (reachable_inStep w Hw) as (_ & _ & pre & Hpre).
           rewrite Hprev in Hpre. cbn [callFor] in Hpre.
           rewrite Hpre in IHn |- *. rewrite <- app_assoc. cbn [app].
           rewrite noDoubleStart_app_Stop_Start.
           now rewrite noDoubleStart_app_Stop in IHn.
        -- now rewrite noDoubleStart_app_Stop.
      * destruct (calls w); [discriminate|exact IHh].
    + destruct (step_not_due us w Hdue) as (Hc & _). rewrite Hc. auto.
Qed.

(** X2.  In the log of every session the first call is the [stop()] of
    the mount, and [start()] is never called twice in a row: between
    two [start()] calls there is always a [stop()]. *)
Theorem start_never_repeated :
  forall (b : Battery) (s : AlarmSound.t) (tr : list (list Update)),
    let w := run tr (mount b s) in
    noDoubleStart (calls w) = true /\ hd_error (calls w) = Some Stop.
Proof.
  intros b s tr w. apply reachable_log_shape, reachable_run. constructor.
Qed.

(** X3.  While the predicate stays true the sound is left alone: a
    render cycle that starts and ends with the predicate true makes no
    call and changes neither the sound nor [isAlarmActive], whatever
    else the updates change (level, charging time, threshold). *)
Theorem alarm_persists_while_true :
  forall (w : World) (us : list Update),
    settled w ->
    shouldAlarm w = true ->
    shouldAlarm (step us w) = true ->
    calls (step us w) = calls w /\
    sound (step us w) = sound w /\
    isAlarmActive (step us w) = isAlarmActive w.
Proof.
  intros w us Hset Hp Hp'. apply step_not_due.
  apply (due_iff_deps_changed us w Hset).
  rewrite shouldAlarm_step in Hp'. rewrite shouldAlarm_allOf in Hp.
  apply allOf_true in Hp, Hp'. congruence.
Qed.

Lemma alarm_persists_while_true_witness :
  calls (step [BatteryChange (mkBattery true false 0.93 true 600); SetThreshold 90]
              alarming)
  = calls alarming.
Proof.
  apply (alarm_persists_while_true alarming).
  - split; vm_compute; reflexivity.
  - vm_compute. reflexivity.
  - vm_compute. reflexivity.
Defined.

(** X4.  Every change of the predicate is answered at once: a render
    cycle after which the predicate differs from its value before makes
    exactly one call, [start()] if it became true and [stop()] if it
    became false, and sets [isAlarmActive] to the new value. *)
Theorem predicate_change_makes_one_call :
  forall (w : World) (us : list Update),
    settled w ->
    shouldAlarm (step us w) <> shouldAlarm w ->
    calls (step us w) =
      calls w ++ [if shouldAlarm (step us w) then Start else Stop] /\
    isAlarmActive (step us w) = shouldAlarm (step us w).
Proof.
  intros w us Hset Hne.
  assert (Hdue : alarmEffectDue (applyAll us w) = true).
  { destruct (alarmEffectDue (applyAll us w)) eqn:E; auto.
    exfalso. apply Hne. apply (due_iff_deps_changed us w Hset) in E.
    rewrite shouldAlarm_step, shouldAlarm_allOf. now rewrite E. }
  destruct (step_due us w Hdue) as (Hc & _ & Ha). split; assumption.
Qed.

Lemma predicate_change_makes_one_call_witness :
  calls (step [SetAlarmEnabled true; Click] goalMetSwitchedOff)
  = calls goalMetSwitchedOff ++ [Start] /\
  calls (step [SetThreshold 95] alarming) = calls alarming ++ [Stop].
Proof.
  split.
  - apply (predicate_change_makes_one_call goalMetSwitchedOff
             [SetAlarmEnabled true; Click]).
    + split; vm_compute; reflexivity.
    + vm_compute. discriminate.
  - apply (predicate_change_makes_one_call alarming [SetThreshold 95]).
    + split; vm_compute; reflexivity.
    + vm_compute. discriminate.
Defined.

(* ------------------------------------------------------------------ *)
(** ** Further properties of the display and of the click handler *)

Lemma shouldAlarm_charging w : shouldAlarm w = true -> charging (battery w) = true.
Proof.
  unfold shouldAlarm. rewrite !andb_true_iff. tauto.
Qed.

(** X5.  After every render cycle the signs of the alarm on the main
    display go together: the warning icon, the red percentage, the red
    ring and the "UNPLUG CHARGER NOW" message are shown exactly when the
    alarm predicate is true.  Otherwise the ring is emerald when
    charging and blue when not, so a blue ring means "not charging". *)
Theorem alarm_visuals_agree :
  forall (b : Battery) (s : AlarmSound.t) (tr : list (list Update))
         (d : MainDisplay),
    let w := run tr (mount b s) in
    App w = Main d ->
    alarmIcon d = shouldAlarm w /\
    percentRed d = shouldAlarm w /\
    (ringColor d = RingRed <-> shouldAlarm w = true) /\
    (statusMessage d = UnplugChargerNow <-> shouldAlarm w = true) /\
    (ringColor d = RingEmerald <->
     charging (battery w) = true /\ shouldAlarm w = false) /\
    (ringColor d = RingBlue <-> charging (battery w) = false).
Proof.
  intros b s tr d w Hd. apply App_main in Hd. destruct Hd as (_ & _ & ->).
  assert (Hin : inStep w) by (apply reachable_inStep, reachable_run; constructor).
  destruct Hin as (_ & Ha & _).
  pose proof (shouldAlarm_charging w) as Hc.
  cbn [alarmIcon percentRed ringColor statusMessage mainDisplay].
  unfold getRingColor, statusOf. rewrite Ha.
  destruct (shouldAlarm w).
  - rewrite (Hc eq_refl). repeat split; auto; try discriminate;
      intros H; try discriminate; destruct H; discriminate.
  - destruct (charging (battery w)); cbn [andb];
      destruct (isThresholdReached w);
      repeat split; auto; try discriminate;
      intros H; try discriminate; destruct H; discriminate.
Qed.

Lemma alarm_visuals_agree_witness :
  ringColor (mainDisplay alarming) = RingRed /\
  ringColor (mainDisplay goalMetAlarmOff) = RingEmerald.
Proof.
  split.
  - apply (alarm_visuals_agree fetching stopped
             [[BatteryChange batteryA]; [Click]; [BatteryChange batteryB]]
             (mainDisplay alarming));
      vm_compute; reflexivity.
  - apply (alarm_visuals_agree fetching stopped
             [[BatteryChange batteryB]; [SetAlarmEnabled false]]
             (mainDisplay goalMetAlarmOff)).
    + vm_compute. reflexivity.
    + split; vm_compute; reflexivity.
Defined.

(** X6.  A click changes nothing -- no state, no effect, no call on the
    sound -- while the spinner or the "not supported" screen is shown,
    and on the main display once [hasInteracted] is set; so clicking
    twice is the same as clicking once. *)
Theorem click_without_effect :
  forall w : World,
    settled w ->
    (isMain (App w) = false -> step [Click] w = w) /\
    (hasInteracted w = true -> step [Click] w = w) /\
    step [Click] (step [Click] w) = step [Click] w.
Proof.
  intros w Hset.
  assert (H1 : isMain (App w) = false -> step [Click] w = w).
  { intros Hm. unfold step, applyAll. cbn [fold_left applyUpdate].
    unfold handleInteraction. rewrite Hm. now apply flushEffects_of_settled. }
  assert (H2 : hasInteracted w = true -> step [Click] w = w).
  { intros Hi. unfold step, applyAll. cbn [fold_left applyUpdate].
    unfold handleInteraction. rewrite Hi. cbn [negb].
    destruct (isMain (App w)); now apply flushEffects_of_settled. }
  split; [exact H1|split; [exact H2|]].
  destruct (isMain (App w)) eqn:Hm; [|now rewrite !(H1 eq_refl)].
  destruct (hasInteracted w) eqn:Hi; [now rewrite !(H2 eq_refl)|].
  set (w1 := step [Click] w).
  assert (Hset1 : settled w1) by apply flushEffects_settled.
  assert (Hi1 : hasInteracted w1 = true).
  { unfold w1, step, applyAll. rewrite hasInteracted_flushEffects.
    cbn [fold_left applyUpdate]. unfold handleInteraction. now rewrite Hm, Hi. }
  unfold step at 1, applyAll. cbn [fold_left applyUpdate].
  unfold handleInteraction. rewrite Hi1. cbn [negb].
  destruct (isMain (App w1)); now apply flushEffects_of_settled.
Qed.

Lemma click_without_effect_witness :
  step [Click] (mount fetching stopped) = mount fetching stopped /\
  step [Click] scenarioA = scenarioA.
Proof.
  assert (H1 : settled (mount fetching stopped)) by (split; vm_compute; reflexivity).
  assert (H2 : settled scenarioA) by (split; vm_compute; reflexivity).
  split.
  - apply (proj1 (click_without_effect _ H1)). vm_compute. reflexivity.
  - apply (proj1 (proj2 (click_without_effect _ H2))). vm_compute. reflexivity.
Defined.

(** X8.  The "Tap anywhere to enable audio permissions" hint of the
    main display is shown exactly while [hasInteracted] is false, and
    then none of the alarm signs is shown with it.  One click on the
    main display removes it, and it is not shown again in any later
    render of the session. *)
Theorem hint_until_first_tap :
  (forall (b : Battery) (s : AlarmSound.t) (tr : list (list Update))
          (d : MainDisplay),
      let w := run tr (mount b s) in
      App w = Main d ->
      (interactionHint d = true <-> hasInteracted w = false) /\
      (interactionHint d = true ->
       alarmIcon d = false /\ ringColor d <> RingRed /\
       statusMessage d <> UnplugChargerNow)) /\
  (forall (w : World) (tr : list (list Update)) (d : MainDisplay),
      isMain (App w) = true ->
      App (run tr (step [Click] w)) = Main d ->
      interactionHint d = false).
Proof.
  split.
  - intros b s tr d w Hd. apply App_main in Hd. destruct Hd as (_ & _ & ->).
    cbn [interactionHint alarmIcon ringColor statusMessage mainDisplay].
    split; [apply negb_true_iff|].
    intros Hh. apply negb_true_iff in Hh.
    assert (Hin : inStep w) by (apply reachable_inStep, reachable_run; constructor).
    destruct Hin as (_ & Ha & _).
    rewrite (gate_closed_no_alarm w Hh) in Ha.
    unfold getRingColor, statusOf. rewrite Ha.
    split; [reflexivity|].
    destruct (charging (battery w)); cbn [andb];
      destruct (isThresholdReached w); split; discriminate.
  - intros w tr d Hm Hd. apply App_main in Hd. destruct Hd as (_ & _ & ->).
    cbn [interactionHint mainDisplay]. apply negb_false_iff.
    apply run_keeps_gate.
    unfold step, applyAll. rewrite hasInteracted_flushEffects.
    cbn [fold_left applyUpdate]. unfold handleInteraction. rewrite Hm.
    destruct (hasInteracted w) eqn:Hi; cbn [negb]; auto.
Qed.

Lemma hint_until_first_tap_witness :
  interactionHint (mainDisplay goalMetAlarmOff) = true /\
  interactionHint (mainDisplay (run [[SetAlarmEnabled true]; [BatteryChange batteryC]]
                                    (step [Click] goalMetAlarmOff))) = false.
Proof.
  split.
  - apply (proj1 hint_until_first_tap fetching stopped
             [[BatteryChange batteryB]; [SetAlarmEnabled false]]
             (mainDisplay goalMetAlarmOff)); vm_compute; reflexivity.
  - apply (proj2 hint_until_first_tap goalMetAlarmOff
             [[SetAlarmEnabled true]; [BatteryChange batteryC]]);
      vm_compute; reflexivity.
Defined.

(* ------------------------------------------------------------------ *)
(** ** Not-a-number levels and thresholds *)

Lemma SFcompare_refl x : x <> S754_nan -> SFcompare x x = Some Eq.
Proof.
  destruct x as [s|s| |s m e]; intros H; try congruence;
    destruct s; cbn; try reflexivity;
    rewrite Z.compare_refl; now rewrite Pos.compare_cont_refl.
Qed.

Lemma is_nan_Prim2SF x : PrimFloat.is_nan x = true -> Prim2SF x = S754_nan.
Proof.
  unfold PrimFloat.is_nan. rewrite negb_true_iff, FloatAxioms.eqb_spec. unfold SFeqb.
  intros H. destruct (Prim2SF x) eqn:E; auto;
    rewrite SFcompare_refl in H; discriminate.
Qed.

Lemma ge_nan_l x y : Prim2SF x = S754_nan -> JS.ge x y = false.
Proof.
  intros H. unfold JS.ge. rewrite FloatAxioms.leb_spec, H. unfold SFleb.
  now destruct (Prim2SF y).
Qed.

Lemma ge_nan_r x y : Prim2SF y = S754_nan -> JS.ge x y = false.
Proof. intros H. unfold JS.ge. rewrite FloatAxioms.leb_spec, H. reflexivity. Qed.

Lemma Math_round_nan x : Prim2SF x = S754_nan -> JS.Math_round x = x.
Proof. intros H. unfold JS.Math_round. now rewrite H. Qed.

(** X7.  A level or a threshold that is NaN never reaches the
    threshold: [Math.round(NaN * 100)] is NaN and every comparison with
    NaN is false, so [isThresholdReached] and the alarm predicate are
    false whatever the other inputs are. *)
Theorem nan_never_reaches_threshold :
  forall w : World,
    PrimFloat.is_nan (level (battery w)) = true \/
    PrimFloat.is_nan (threshold w) = true ->
    isThresholdReached w = false /\ shouldAlarm w = false.
Proof.
  intros w H.
  assert (Hr : isThresholdReached w = false).
  { unfold isThresholdReached, batteryPercent. destruct H as [H|H].
    - apply is_nan_Prim2SF in H.
      assert (Hm : Prim2SF (level (battery w) * 100)%float = S754_nan)
        by (rewrite FloatAxioms.mul_spec, H; reflexivity).
      rewrite (Math_round_nan _ Hm). now apply ge_nan_l.
    - apply ge_nan_r. now apply is_nan_Prim2SF. }
  split; [exact Hr|].
  unfold shouldAlarm. rewrite Hr.
  destruct (supported (battery w)), (charging (battery w)); reflexivity.
Qed.

Lemma nan_never_reaches_threshold_witness :
  shouldAlarm (run [[BatteryChange batteryNaN]; [Click]; [SetThreshold 0]]
                   (mount fetching stopped)) = false.
Proof.
  apply nan_never_reaches_threshold. left. vm_compute. reflexivity.
Defined.
